(** * Verification runner: jules-scratch/verification/verify.py

    A shallow embedding of the script that drives a headless browser
    through the WordSpark login / dashboard / story flow, and the
    properties of its control flow: which browser operations are issued,
    in which order, on which exit path.

    The browser-automation library is external to the script.  It is
    modelled as an interface ([Driver]) whose operations answer with a
    value or with a raised exception and change the state of the outside
    world; the script is written once, against that interface, in a small
    exception-and-trace monad.  Every theorem about "every run" quantifies
    over every implementation of the interface and every initial world. *)

From Stdlib Require Import ZArith List String Ascii Bool Lia.
From stdpp Require Import base option list strings gmap.

Local Open Scope string_scope.
Local Open Scope list_scope.

(** ** Data of the automation API, as the script uses it *)

(** Handles returned by the library.  The script keeps one of each in a
    local variable ([playwright], [browser], [context], [page]). *)
Inductive playwright := PlaywrightHandle (id : nat).
Inductive browser := BrowserHandle (id : nat).
Inductive context := ContextHandle (id : nat).
Inductive page := PageHandle (id : nat).

(** [playwright.chromium], [.firefox], [.webkit]: the script uses the first. *)
Inductive browser_type := chromium | firefox | webkit.

(** ARIA roles the script names, plus the role of a labelled input. *)
Inductive role := heading | button | textbox.

(** Locators are descriptions of elements, resolved by the library at the
    time of each operation.  [get_by_role r name] is
    [page.get_by_role(r, name=name)] with no [exact] argument;
    [first l] is [l.first]. *)
Inductive locator :=
| get_by_role (r : role) (name : string)
| get_by_label (text : string)
| first (l : locator).

(** Exceptions of the library's Python binding. *)
Inductive exn :=
| Error (msg : string)
| TimeoutError (msg : string)
| AssertionError (msg : string).

(** A Python call returns a value or raises. *)
Inductive result (A : Type) :=
| Ok (a : A)
| Err (e : exn).
Arguments Ok {A} a.
Arguments Err {A} e.

Definition is_ok {A} (r : result A) : bool :=
  match r with Ok _ => true | Err _ => false end.

Definition bytes := list Byte.byte.

(** One entry per call of the library, with its arguments and its answer.
    [timeout] is in milliseconds; [None] means that the script passes no
    timeout, so that the library's default applies. *)
Inductive event :=
| Estart (r : result playwright)
| Estop (pw : playwright) (r : result unit)
| Elaunch (pw : playwright) (bt : browser_type) (headless : bool)
          (r : result browser)
| Enew_context (b : browser) (r : result context)
| Enew_page (c : context) (r : result page)
| Egoto (p : page) (url : string) (r : result unit)
| Eis_visible (p : page) (l : locator) (r : result bool)
| Efill (p : page) (l : locator) (value : string) (r : result unit)
| Eclick (p : page) (l : locator) (r : result unit)
| Escreenshot (p : page) (path : string) (r : result bytes)
| Eexpect_visible (p : page) (l : locator) (timeout : option Z)
                  (r : result unit)
| Eclose (b : browser) (r : result unit).

(** ** The library as an interface *)

(** Each operation reads and updates the outside world [W] (browser
    process, web application, clock, disk) and returns or raises. *)
Class Driver (W : Type) := {
  sync_playwright_enter : W -> result playwright * W;
  sync_playwright_exit : playwright -> W -> result unit * W;
  launch : playwright -> browser_type -> bool -> W -> result browser * W;
  new_context : browser -> W -> result context * W;
  new_page : context -> W -> result page * W;
  goto : page -> string -> W -> result unit * W;
  is_visible : page -> locator -> W -> result bool * W;
  fill : page -> locator -> string -> W -> result unit * W;
  click : page -> locator -> W -> result unit * W;
  screenshot : page -> string -> W -> result bytes * W;
  expect_to_be_visible :
    page -> locator -> option Z -> W -> result unit * W;
  close : browser -> W -> result unit * W
}.

(** ** Exceptions and the trace of calls *)

Section Script.
Context {W : Type} `{Driver W}.

(** A computation runs from a world to an outcome, the world it leaves
    and the calls it made, oldest first. *)
Definition M (A : Type) : Type := W -> result A * W * list event.

Definition ret {A} (a : A) : M A := fun w => (Ok a, w, []).

Definition bind {A B} (m : M A) (k : A -> M B) : M B :=
  fun w =>
    match m w with
    | (Ok a, w1, t1) =>
        match k a w1 with
        | (r, w2, t2) => (r, w2, t1 ++ t2)
        end
    | (Err e, w1, t1) => (Err e, w1, t1)
    end.

(** [try: body finally: fin].  The handler runs on both exits of the
    body; an exception raised by the handler replaces the body's
    outcome, otherwise the body's outcome stands. *)
Definition try_finally {A} (body : M A) (fin : M unit) : M A :=
  fun w =>
    match body w with
    | (r, w1, t1) =>
        match fin w1 with
        | (Ok _, w2, t2) => (r, w2, t1 ++ t2)
        | (Err e, w2, t2) => (Err e, w2, t1 ++ t2)
        end
    end.

(** [with enter() as x: body x]; [leave] is the manager's [__exit__],
    which here never suppresses the exception. *)
Definition with_manager {A R} (enter : M R) (leave : R -> M unit)
    (body : R -> M A) : M A :=
  bind enter (fun x => try_finally (body x) (leave x)).

(** A library call: one step of the world, one event. *)
Definition call {A} (f : W -> result A * W) (ev : result A -> event)
  : M A :=
  fun w => match f w with (r, w1) => (r, w1, [ev r]) end.

#[global] Instance M_ret : MRet M := @ret.
#[global] Instance M_bind : MBind M := fun A B k m => bind m k.

(** ** The script *)

Definition url : string := "http://localhost:8080/".
Definition after_login_png : string :=
  "jules-scratch/verification/after_login.png".
Definition dashboard_png : string :=
  "jules-scratch/verification/dashboard.png".
Definition story_page_png : string :=
  "jules-scratch/verification/story_page.png".

(** The body of the [try] block of [run]. *)
Definition steps (page0 : page) : M unit :=
  call (goto page0 url) (Egoto page0 url);;
  (* are we on the login page? *)
  on_login ← call (is_visible page0 (get_by_role heading "WordSpark"))
                  (Eis_visible page0 (get_by_role heading "WordSpark"));
  (if on_login : bool then
     call (fill page0 (get_by_label "Email") "test@example.com")
          (Efill page0 (get_by_label "Email") "test@example.com");;
     call (fill page0 (get_by_label "Password") "password")
          (Efill page0 (get_by_label "Password") "password");;
     call (click page0 (get_by_role button "Sign In"))
          (Eclick page0 (get_by_role button "Sign In"));;
     call (screenshot page0 after_login_png)
          (Escreenshot page0 after_login_png);;
     mret tt
   else mret tt);;
  (* Wait for the page to load *)
  call (expect_to_be_visible page0
          (get_by_role heading "Vocabulary Lists") (Some 10000%Z))
       (Eexpect_visible page0
          (get_by_role heading "Vocabulary Lists") (Some 10000%Z));;
  (* Take a screenshot of the dashboard *)
  call (screenshot page0 dashboard_png) (Escreenshot page0 dashboard_png);;
  (* Find a "Play Story" button and click it *)
  let play_story_button := first (get_by_role button "Play Story") in
  call (expect_to_be_visible page0 play_story_button None)
       (Eexpect_visible page0 play_story_button None);;
  call (click page0 play_story_button) (Eclick page0 play_story_button);;
  (* Wait for the story page to load *)
  call (expect_to_be_visible page0 (get_by_role heading "Story:") None)
       (Eexpect_visible page0 (get_by_role heading "Story:") None);;
  (* Take a screenshot of the story page *)
  call (screenshot page0 story_page_png)
       (Escreenshot page0 story_page_png);;
  mret tt.

Definition run (pw : playwright) : M unit :=
  browser0 ← call (launch pw chromium true) (Elaunch pw chromium true);
  context0 ← call (new_context browser0) (Enew_context browser0);
  page0 ← call (new_page context0) (Enew_page context0);
  try_finally (steps page0)
              (call (close browser0) (Eclose browser0)).

(** The module body: [with sync_playwright() as playwright: run(playwright)]. *)
Definition verify : M unit :=
  with_manager (call sync_playwright_enter Estart)
               (fun pw => call (sync_playwright_exit pw) (Estop pw))
               run.

Definition outcome_of {A} (x : result A * W * list event) : result A :=
  x.1.1.
Definition world_of {A} (x : result A * W * list event) : W := x.1.2.
Definition trace_of {A} (x : result A * W * list event) : list event :=
  x.2.

End Script.

Arguments M : clear implicits.

(** ** Observations on traces *)

Fixpoint locator_eqb (l1 l2 : locator) : bool :=
  match l1, l2 with
  | get_by_role heading n1, get_by_role heading n2
  | get_by_role button n1, get_by_role button n2
  | get_by_role textbox n1, get_by_role textbox n2 => String.eqb n1 n2
  | get_by_label t1, get_by_label t2 => String.eqb t1 t2
  | first l1', first l2' => locator_eqb l1' l2'
  | _, _ => false
  end.

(** Did the call return (rather than raise)? *)
Definition returned (e : event) : bool :=
  match e with
  | Estart r => is_ok r
  | Estop _ r => is_ok r
  | Elaunch _ _ _ r => is_ok r
  | Enew_context _ r => is_ok r
  | Enew_page _ r => is_ok r
  | Egoto _ _ r => is_ok r
  | Eis_visible _ _ r => is_ok r
  | Efill _ _ _ r => is_ok r
  | Eclick _ _ r => is_ok r
  | Escreenshot _ _ r => is_ok r
  | Eexpect_visible _ _ _ r => is_ok r
  | Eclose _ r => is_ok r
  end.

Definition raised (e : event) : bool := negb (returned e).

Definition is_launch (e : event) : bool :=
  match e with Elaunch _ _ _ _ => true | _ => false end.
Definition is_new_context (e : event) : bool :=
  match e with Enew_context _ _ => true | _ => false end.
Definition is_new_page (e : event) : bool :=
  match e with Enew_page _ _ => true | _ => false end.
Definition is_goto (e : event) : bool :=
  match e with Egoto _ _ _ => true | _ => false end.
Definition is_fill (e : event) : bool :=
  match e with Efill _ _ _ _ => true | _ => false end.
Definition is_screenshot (e : event) : bool :=
  match e with Escreenshot _ _ _ => true | _ => false end.
Definition is_close (e : event) : bool :=
  match e with Eclose _ _ => true | _ => false end.

(** A click on the element that [l] describes. *)
Definition clicks (l : locator) (e : event) : bool :=
  match e with Eclick _ l' _ => locator_eqb l l' | _ => false end.

(** A screenshot call with [path] as its target. *)
Definition shoots (path : string) (e : event) : bool :=
  match e with Escreenshot _ p _ => String.eqb path p | _ => false end.

(** The non-waiting probe of the login heading, answering [b]. *)
Definition probe_answers (b : bool) (e : event) : bool :=
  match e with
  | Eis_visible _ l (Ok b') =>
      locator_eqb l (get_by_role heading "WordSpark") && Bool.eqb b b'
  | _ => false
  end.

(** The call that uses or creates a browser, context or page handle:
    everything but entering and leaving the library's manager. *)
Definition uses_handle (e : event) : bool :=
  match e with Estart _ | Estop _ _ => false | _ => true end.

Fixpoint count (P : event -> bool) (t : list event) : nat :=
  match t with
  | [] => 0
  | e :: t' => (if P e then 1 else 0) + count P t'
  end.

(** The calls made after the first one that satisfies [P]. *)
Fixpoint after_first (P : event -> bool) (t : list event)
  : option (list event) :=
  match t with
  | [] => None
  | e :: t' => if P e then Some t' else after_first P t'
  end.

(** Every call satisfying [Q] comes right after a call satisfying [P]. *)
Fixpoint each_follows (P Q : event -> bool) (prev : option event)
    (t : list event) : bool :=
  match t with
  | [] => true
  | e :: t' =>
      (if Q e then match prev with Some e0 => P e0 | None => false end
       else true)
      && each_follows P Q (Some e) t'
  end.

(** [new_page] returned a page: the three handles exist. *)
Definition created_page (e : event) : bool :=
  match e with Enew_page _ (Ok _) => true | _ => false end.

Definition timeout_eqb (t1 t2 : option Z) : bool :=
  match t1, t2 with
  | Some a, Some b => Z.eqb a b
  | None, None => true
  | _, _ => false
  end.

(** The visibility assertion on [l] with [timeout], whatever its answer. *)
Definition waits (l : locator) (timeout : option Z) (e : event) : bool :=
  match e with
  | Eexpect_visible _ l' t' _ => locator_eqb l l' && timeout_eqb timeout t'
  | _ => false
  end.

(** The same assertion, passed. *)
Definition passes (l : locator) (timeout : option Z) (e : event) : bool :=
  waits l timeout e && returned e.

(** A click on [l] that returned. *)
Definition clicked (l : locator) (e : event) : bool :=
  clicks l e && returned e.

(** A screenshot at [path] that returned. *)
Definition shot (path : string) (e : event) : bool :=
  shoots path e && returned e.

(** The login branch is left normally: either the probe said that the
    heading is not visible, or the last statement of the branch returned. *)
Definition leaves_login (e : event) : bool :=
  probe_answers false e || shot "jules-scratch/verification/after_login.png" e.

(** A raised call ends the trace. *)
Fixpoint fail_stop (t : list event) : bool :=
  match t with
  | [] => true
  | e :: t' =>
      if returned e then fail_stop t'
      else match t' with [] => true | _ :: _ => false end
  end.

(** ** The disk *)

(** [page.screenshot(path=...)] saves the image it returns at [path],
    replacing the file that was there; it is the only call of the script
    that takes a file name. *)
Definition store (d : gmap string bytes) (e : event) : gmap string bytes :=
  match e with
  | Escreenshot _ path (Ok image) => <[path := image]> d
  | _ => d
  end.

Definition disk_after (t : list event) (d : gmap string bytes)
  : gmap string bytes :=
  fold_left store t d.

(** The effective timeout of an assertion, given the library's default. *)
Definition effective_timeout (default : Z) (timeout : option Z) : Z :=
  match timeout with Some ms => ms | None => default end.

(** ** Matching of accessible names *)

(** [get_by_role(role, name=s)] and [get_by_label(s)] with a string [s]
    and no [exact=True].  The library normalises the whitespace of both
    the given string and the accessible name (trimmed, every run of
    whitespace made one space), puts both in upper case, and searches the
    name for the string.  Names are taken to be written in ASCII
    ([is_ascii]); on other characters the library's case mapping and
    whitespace classes are not modelled. *)
Module Locators.

Definition upper (c : ascii) : ascii :=
  let n := N_of_ascii c in
  if (97 <=? n)%N && (n <=? 122)%N then ascii_of_N (n - 32) else c.

Fixpoint uppercase (s : string) : string :=
  match s with
  | EmptyString => EmptyString
  | String c s' => String (upper c) (uppercase s')
  end.

(** Tab, line feed, vertical tab, form feed, carriage return, space. *)
Definition is_space (c : ascii) : bool :=
  let n := N_of_ascii c in
  (n =? 32)%N || ((9 <=? n)%N && (n <=? 13)%N).

(** [started]: a character that is not whitespace has been kept;
    [gap]: whitespace has been skipped since. *)
Fixpoint squeeze (started gap : bool) (s : string) : string :=
  match s with
  | EmptyString => EmptyString
  | String c s' =>
      if is_space c then squeeze started started s'
      else if gap then String " " (String c (squeeze true false s'))
           else String c (squeeze true false s')
  end.

Definition normalize (s : string) : string := squeeze false false s.

Fixpoint contains (pat s : string) : bool :=
  String.prefix pat s
  || match s with
     | EmptyString => false
     | String _ s' => contains pat s'
     end.

Definition name_matches (name accessible : string) : bool :=
  contains (uppercase (normalize name)) (uppercase (normalize accessible)).

Fixpoint is_ascii (s : string) : bool :=
  match s with
  | EmptyString => true
  | String c s' => (N_of_ascii c <? 128)%N && is_ascii s'
  end.

Fixpoint spaceless (s : string) : bool :=
  match s with
  | EmptyString => true
  | String c s' => negb (is_space c) && spaceless s'
  end.

(** Said without [upper]: the same character, or the two cases of one
    letter. *)
Definition is_letter (c : ascii) : bool :=
  let n := N_of_ascii c in
  ((65 <=? n)%N && (n <=? 90)%N) || ((97 <=? n)%N && (n <=? 122)%N).

Definition same_letter (a b : ascii) : bool :=
  Ascii.eqb a b
  || (is_letter a && is_letter b
      && ((N_of_ascii a + 32 =? N_of_ascii b)%N
          || (N_of_ascii b + 32 =? N_of_ascii a)%N)).

Fixpoint eq_nocase (s1 s2 : string) : bool :=
  match s1, s2 with
  | EmptyString, EmptyString => true
  | String a s1', String b s2' => same_letter a b && eq_nocase s1' s2'
  | _, _ => false
  end.

End Locators.

(** ** A stub application and a stub browser

    A small implementation of the interface, used to run the script on
    concrete pages: a site is a list of screens, a screen is the list of
    its accessible elements in document order, and a click on an element
    may lead to another screen.  Elements are matched as [Locators] says;
    an operation on a locator that resolves to several elements is
    refused (the library's strict mode), and nothing on a stub page ever
    changes while the script waits.  One chosen call can be made to
    raise, to inject a fault. *)
Module Stub.

Record element := Element {
  el_role : role;
  el_name : string;
  el_goes : option nat
}.

Record world := World {
  site : list (list element);
  served : bool;
  shown : list element;
  ticks : nat;
  fault : option nat
}.

Definition role_eqb (r1 r2 : role) : bool :=
  match r1, r2 with
  | heading, heading | button, button | textbox, textbox => true
  | _, _ => false
  end.

Fixpoint resolve (l : locator) (screen : list element) : list element :=
  match l with
  | get_by_role r name =>
      List.filter
        (fun e => role_eqb r (el_role e)
                  && Locators.name_matches name (el_name e)) screen
  | get_by_label text =>
      List.filter
        (fun e => role_eqb textbox (el_role e)
                  && Locators.name_matches text (el_name e)) screen
  | first l' => take 1 (resolve l' screen)
  end.

Definition tick (w : world) : world :=
  World (site w) (served w) (shown w) (S (ticks w)) (fault w).

Definition show (screen : list element) (w : world) : world :=
  World (site w) (served w) screen (ticks w) (fault w).

(** Every call counts; the call numbered [fault w] raises. *)
Definition guarded {A} (op : world -> result A * world) (w : world)
  : result A * world :=
  match fault w with
  | Some k =>
      if Nat.eqb k (ticks w) then (Err (Error "injected fault"), tick w)
      else op (tick w)
  | None => op (tick w)
  end.

Definition strict : exn := Error "strict mode violation".
Definition png : bytes := [Byte.x89; Byte.x50; Byte.x4e; Byte.x47].

(** The image of a screen: a header and one byte per element. *)
Definition image (screen : list element) : bytes :=
  png ++ List.map (fun _ => Byte.x2a) screen.

Definition on_one {A} (l : locator) (none : exn)
    (k : element -> world -> result A * world) (w : world)
  : result A * world :=
  match resolve l (shown w) with
  | [] => (Err none, w)
  | [e] => k e w
  | _ => (Err strict, w)
  end.

#[global] Instance driver : Driver world := {
  sync_playwright_enter := guarded (fun w => (Ok (PlaywrightHandle 0), w));
  sync_playwright_exit _ := guarded (fun w => (Ok tt, w));
  launch _ _ _ := guarded (fun w => (Ok (BrowserHandle 1), w));
  new_context _ := guarded (fun w => (Ok (ContextHandle 2), w));
  new_page _ := guarded (fun w => (Ok (PageHandle 3), w));
  goto _ _ :=
    guarded (fun w =>
      if served w then (Ok tt, show (nth 0 (site w) []) w)
      else (Err (Error "net::ERR_CONNECTION_REFUSED"), w));
  is_visible _ l :=
    guarded (fun w =>
      match resolve l (shown w) with
      | [] => (Ok false, w)
      | [_] => (Ok true, w)
      | _ => (Err strict, w)
      end);
  fill _ l _ :=
    guarded (on_one l (TimeoutError "fill: no such element")
               (fun _ w => (Ok tt, w)));
  click _ l :=
    guarded (on_one l (TimeoutError "click: no such element")
               (fun e w =>
                  match el_goes e with
                  | Some k => (Ok tt, show (nth k (site w) []) w)
                  | None => (Ok tt, w)
                  end));
  screenshot _ _ := guarded (fun w => (Ok (image (shown w)), w));
  expect_to_be_visible _ l _ :=
    guarded (on_one l (AssertionError "Locator expected to be visible")
               (fun _ w => (Ok tt, w)));
  close _ := guarded (fun w => (Ok tt, w))
}.

(** The screens of the application under test. *)
Definition login_screen : list element :=
  [ Element heading "WordSpark" None;
    Element textbox "Email" None;
    Element textbox "Password" None;
    Element button "Sign In" (Some 1) ].

Definition dashboard_screen : list element :=
  [ Element heading "Vocabulary Lists" None;
    Element button "Play Story" (Some 2);
    Element button "Play Story" (Some 0) ].

Definition story_screen (title : string) : list element :=
  [ Element heading title None ].

(** The application before login. *)
Definition wordspark : list (list element) :=
  [ login_screen; dashboard_screen; story_screen "Story: The Fox" ].

(** The application when the session is already authenticated: the
    dashboard is served at once. *)
Definition signed_in : list (list element) :=
  [ dashboard_screen; dashboard_screen; story_screen "Story: The Fox" ].

(** A dashboard that never renders its heading. *)
Definition blank_dashboard : list (list element) :=
  [ login_screen; [ Element button "Play Story" (Some 2) ];
    story_screen "Story: The Fox" ].

(** A login page without the e-mail field. *)
Definition no_email : list (list element) :=
  [ [ Element heading "WordSpark" None;
      Element textbox "Password" None;
      Element button "Sign In" (Some 1) ];
    dashboard_screen; story_screen "Story: The Fox" ].

(** A story page whose heading has the words in the middle. *)
Definition short_story : list (list element) :=
  [ login_screen; dashboard_screen;
    story_screen "A Short Story: The Fox" ].

(** The application with any page at all behind the "Play Story"
    button. *)
Definition with_story (story : list element) : list (list element) :=
  [ login_screen; dashboard_screen; story ].

Definition boot (s : list (list element)) (fault : option nat) : world :=
  World s true [] 0 fault.

Definition pw0 : playwright := PlaywrightHandle 0.

End Stub.

(** ** Discipline

    A computation is disciplined when its trace is fail-stop and it
    returns exactly when all its calls returned. *)
Definition disciplined {W A : Type} (m : M W A) : Prop :=
  forall w,
    fail_stop (trace_of (m w)) = true /\
    is_ok (outcome_of (m w)) = forallb returned (trace_of (m w)).

(** ** Further observations on traces *)

Definition is_stop (e : event) : bool :=
  match e with Estop _ _ => true | _ => false end.

(** The library's manager was entered. *)
Definition entered (e : event) : bool :=
  match e with Estart (Ok _) => true | _ => false end.

(** The exception of a call that raised. *)
Definition error_of (e : event) : option exn :=
  match e with
  | Estart (Err x) | Estop _ (Err x) | Elaunch _ _ _ (Err x)
  | Enew_context _ (Err x) | Enew_page _ (Err x) | Egoto _ _ (Err x)
  | Eis_visible _ _ (Err x) | Efill _ _ _ (Err x) | Eclick _ _ (Err x)
  | Escreenshot _ _ (Err x) | Eexpect_visible _ _ _ (Err x)
  | Eclose _ (Err x) => Some x
  | _ => None
  end.

(** The exception of the last call that raised, if any did. *)
Fixpoint last_error (t : list event) : option exn :=
  match t with
  | [] => None
  | e :: t' =>
      match last_error t' with
      | Some x => Some x
      | None => error_of e
      end
  end.

Definition raise_or_return (o : option exn) : result unit :=
  match o with Some x => Err x | None => Ok tt end.

(** The handle on which a call is made. *)
Definition page_of (e : event) : option page :=
  match e with
  | Egoto p _ _ | Eis_visible p _ _ | Efill p _ _ _ | Eclick p _ _
  | Escreenshot p _ _ | Eexpect_visible p _ _ _ => Some p
  | _ => None
  end.

Definition context_of (e : event) : option context :=
  match e with Enew_page c _ => Some c | _ => None end.

Definition browser_of (e : event) : option browser :=
  match e with Enew_context b _ | Eclose b _ => Some b | _ => None end.

(** The targets of the screenshot calls, in order. *)
Fixpoint screenshot_paths (t : list event) : list string :=
  match t with
  | [] => []
  | Escreenshot _ path _ :: t' => path :: screenshot_paths t'
  | _ :: t' => screenshot_paths t'
  end.

(** ** Case analysis on the library's answers *)

Ltac answer :=
  match goal with
  | |- context [match ?c with pair _ _ => _ end] =>
      lazymatch type of c with
      | (result _ * _)%type => destruct c as [[?|?] ?]
      end
  | |- context [if ?b then _ else _] => is_var b; destruct b
  end.

Ltac unfold_script :=
  unfold outcome_of, world_of, trace_of, verify, with_manager, run, steps,
    try_finally, call, mbind, mret, M_bind, M_ret, bind, ret in *;
  cbn [fst snd] in *.

Ltac run_cases := unfold_script; repeat (answer; cbn in * ).

(** Closes a goal about one fully analysed run. *)
Ltac settle :=
  repeat first
    [ discriminate
    | reflexivity
    | lia
    | progress intros
    | match goal with
      | |- _ /\ _ => split
      | |- exists _, _ => eexists
      end ].

(** Replaces the unit values of a goal by [tt]. *)
Ltac all_tt := repeat match goal with u : unit |- _ => destruct u end.

(** ** Runs on the stub application *)

(** The whole flow, from the login page to the story. *)
Example full_flow :
  run Stub.pw0 (Stub.boot Stub.wordspark None)
  = (Ok tt,
     Stub.World Stub.wordspark true (Stub.story_screen "Story: The Fox")
       16 None,
     [Elaunch Stub.pw0 chromium true (Ok (BrowserHandle 1));
      Enew_context (BrowserHandle 1) (Ok (ContextHandle 2));
      Enew_page (ContextHandle 2) (Ok (PageHandle 3));
      Egoto (PageHandle 3) "http://localhost:8080/" (Ok tt);
      Eis_visible (PageHandle 3) (get_by_role heading "WordSpark") (Ok true);
      Efill (PageHandle 3) (get_by_label "Email") "test@example.com" (Ok tt);
      Efill (PageHandle 3) (get_by_label "Password") "password" (Ok tt);
      Eclick (PageHandle 3) (get_by_role button "Sign In") (Ok tt);
      Escreenshot (PageHandle 3) after_login_png
        (Ok (Stub.image Stub.dashboard_screen));
      Eexpect_visible (PageHandle 3)
        (get_by_role heading "Vocabulary Lists") (Some 10000%Z) (Ok tt);
      Escreenshot (PageHandle 3) dashboard_png
        (Ok (Stub.image Stub.dashboard_screen));
      Eexpect_visible (PageHandle 3)
        (first (get_by_role button "Play Story")) None (Ok tt);
      Eclick (PageHandle 3) (first (get_by_role button "Play Story")) (Ok tt);
      Eexpect_visible (PageHandle 3) (get_by_role heading "Story:") None
        (Ok tt);
      Escreenshot (PageHandle 3) story_page_png
        (Ok (Stub.image (Stub.story_screen "Story: The Fox")));
      Eclose (BrowserHandle 1) (Ok tt)]).
Proof. vm_compute. reflexivity. Qed.

(** An authenticated session: the probe answers false and the login
    steps are not made. *)
Example signed_in_flow :
  List.map returned (trace_of (run Stub.pw0 (Stub.boot Stub.signed_in None)))
  = List.repeat true 12
  /\ outcome_of (run Stub.pw0 (Stub.boot Stub.signed_in None)) = Ok tt.
Proof. vm_compute. split; reflexivity. Qed.

(** The dashboard has two buttons named "Play Story"; [first] keeps the
    one that comes first in the document, which leads to the story. *)
Example first_play_story_button :
  Stub.resolve (get_by_role button "Play Story") Stub.dashboard_screen
  = [Stub.Element button "Play Story" (Some 2);
     Stub.Element button "Play Story" (Some 0)] /\
  Stub.resolve (first (get_by_role button "Play Story")) Stub.dashboard_screen
  = [Stub.Element button "Play Story" (Some 2)].
Proof. vm_compute. split; reflexivity. Qed.

(** Names are matched in any letter case and anywhere in the accessible
    name. *)
Example name_matching :
  Locators.name_matches "Story:" "Story: The Fox" = true /\
  Locators.name_matches "Story:" "STORY: THE FOX" = true /\
  Locators.name_matches "Story:" "A Short Story: The Fox" = true /\
  Locators.name_matches "Story:" "Stories" = false.
Proof. vm_compute. repeat split. Qed.

(** Whitespace is normalised on both sides before the search. *)
Example name_matching_whitespace :
  Locators.normalize "  Play   Story " = "Play Story" /\
  Locators.name_matches "Play Story" "Play   story now" = true /\
  Locators.name_matches " Story: " "Story:The Fox" = true /\
  Locators.name_matches "Play Story" "PlayStory" = false.
Proof. vm_compute. repeat split. Qed.

(** A fault injected at any one call of the [try] block (calls 3 to 15 of
    the full flow): the run raises and the browser is closed once. *)
Example fault_at_each_step :
  forallb
    (fun k =>
       let r := run Stub.pw0 (Stub.boot Stub.wordspark (Some k)) in
       negb (is_ok (outcome_of r))
       && Nat.eqb (count is_close (trace_of r)) 1)
    (seq 3 13) = true.
Proof. vm_compute. reflexivity. Qed.

(** ** Laws of the monad *)

Lemma count_app P t1 t2 : count P (t1 ++ t2) = count P t1 + count P t2.
Proof. induction t1 as [|e t1 IH]; cbn; [done | rewrite IH; lia]. Qed.

Lemma forallb_returned_app t1 t2 :
  forallb returned (t1 ++ t2) = forallb returned t1 && forallb returned t2.
Proof. apply forallb_app. Qed.

Lemma fail_stop_app t1 t2 :
  forallb returned t1 = true -> fail_stop (t1 ++ t2) = fail_stop t2.
Proof.
  induction t1 as [|e t1 IH]; cbn; [done |].
  destruct (returned e); cbn; [exact IH | discriminate].
Qed.

Section Laws.
Context {W : Type} `{Driver W}.

Lemma disciplined_ret {A} (a : A) : disciplined (mret a : M W A).
Proof. intros w. done. Qed.

Lemma disciplined_call {A} (f : W -> result A * W) ev :
  (forall r, returned (ev r) = is_ok r) -> disciplined (call f ev).
Proof.
  intros Hev w. unfold call, trace_of, outcome_of.
  destruct (f w) as [r w1]; cbn. rewrite Hev.
  destruct r; done.
Qed.

Lemma disciplined_bind {A B} (m : M W A) (k : A -> M W B) :
  disciplined m -> (forall a, disciplined (k a)) -> disciplined (m ≫= k).
Proof.
  intros Hm Hk w. destruct (Hm w) as [Hfs Hok].
  unfold mbind, M_bind, bind, trace_of, outcome_of in *.
  destruct (m w) as [[[a|e] w1] t1]; cbn in *.
  - destruct (Hk a w1) as [Hfs2 Hok2].
    unfold trace_of, outcome_of in *.
    destruct (k a w1) as [[r w2] t2]; cbn in *.
    symmetry in Hok.
    rewrite fail_stop_app, forallb_returned_app, Hok by done. done.
  - done.
Qed.

Lemma disciplined_steps p : disciplined (steps p).
Proof.
  unfold steps.
  repeat first
    [ apply disciplined_ret
    | apply disciplined_call; intros; reflexivity
    | apply disciplined_bind; [| intros ?]
    | match goal with |- disciplined (if ?b then _ else _) => destruct b end ].
Qed.

(** [try ... finally] runs the handler after the body, whatever the
    body did. *)
Lemma trace_try_finally {A} (body : M W A) (fin : M W unit) w :
  trace_of (try_finally body fin w)
  = trace_of (body w) ++ trace_of (fin (world_of (body w))).
Proof.
  unfold try_finally, trace_of, world_of.
  destruct (body w) as [[r w1] t1]; cbn.
  destruct (fin w1) as [[[]] t2]; done.
Qed.

Lemma outcome_try_finally {A} (body : M W A) (fin : M W unit) w :
  outcome_of (try_finally body fin w)
  = match outcome_of (fin (world_of (body w))) with
    | Ok _ => outcome_of (body w)
    | Err e => Err e
    end.
Proof.
  unfold try_finally, outcome_of, world_of.
  destruct (body w) as [[r w1] t1]; cbn.
  destruct (fin w1) as [[[]] t2]; done.
Qed.

(** The body of the [try] block never closes the browser itself. *)
Lemma steps_no_close p w : count is_close (trace_of (steps p w)) = 0.
Proof. run_cases; reflexivity. Qed.

End Laws.

(** ** The browser is closed on every exit of the [try] block *)

Section Cleanup.
Context {W : Type} `{Driver W}.

(** Once the page exists, the rest of [run] is the protected block. *)
Lemma run_after_setup pw w :
  existsb created_page (trace_of (run pw w)) = true ->
  exists b c p w3,
    trace_of (run pw w)
    = [Elaunch pw chromium true (Ok b); Enew_context b (Ok c);
       Enew_page c (Ok p)]
      ++ trace_of (try_finally (steps p) (call (close b) (Eclose b)) w3)
    /\ outcome_of (run pw w)
       = outcome_of (try_finally (steps p) (call (close b) (Eclose b)) w3).
Proof.
  unfold run, mbind, M_bind, bind, call, trace_of, outcome_of.
  destruct (launch pw chromium true w) as [[b|e] w1]; cbn; [|discriminate].
  destruct (new_context b w1) as [[c|e] w2]; cbn; [|discriminate].
  destruct (new_page c w2) as [[p|e] w3]; cbn; [|discriminate].
  intros _. exists b, c, p, w3.
  destruct (try_finally _ _ w3) as [[r w4] t]; cbn.
  destruct r; done.
Qed.

Lemma trace_close b w :
  exists rc, trace_of (call (close b) (Eclose b) w) = [Eclose b rc]
             /\ outcome_of (call (close b) (Eclose b) w) = rc.
Proof.
  unfold call, trace_of, outcome_of.
  destruct (close b w) as [rc w1]. by exists rc.
Qed.

End Cleanup.

(** C1, as amended.  In every run in which the browser, the context and
    the page were created, [browser.close()] is called exactly once, on
    the browser that [launch] returned, as the last call of the run,
    whether or not navigation, the probe, a fill, a click, an assertion
    or a screenshot raised; and the run returns normally exactly when
    every call returned, so that a failure still propagates after the
    close. *)
Theorem close_runs_once {W : Type} `{Driver W} (pw : playwright) (w : W) :
  existsb created_page (trace_of (run pw w)) = true ->
  count is_close (trace_of (run pw w)) = 1 /\
  (exists b rc,
      In (Elaunch pw chromium true (Ok b)) (trace_of (run pw w)) /\
      last (trace_of (run pw w)) = Some (Eclose b rc)) /\
  is_ok (outcome_of (run pw w)) = forallb returned (trace_of (run pw w)).
Proof.
  intros Hpage.
  destruct (run_after_setup pw w Hpage) as (b & c & p & w3 & Ht & Ho).
  rewrite Ht, Ho, trace_try_finally, outcome_try_finally.
  destruct (trace_close b (world_of (steps p w3))) as (rc & Hc & Hrc).
  rewrite Hc, Hrc. destruct (disciplined_steps p w3) as [_ Hok].
  repeat split.
  - rewrite !count_app, steps_no_close. reflexivity.
  - exists b, rc. split; [by left |].
    rewrite app_assoc. apply last_snoc.
  - rewrite !forallb_returned_app. cbn.
    destruct rc as [[]|e]; cbn; [| by rewrite andb_false_r].
    by rewrite Hok, !andb_true_r.
Qed.

(** The stub application, all calls answering: the browser is closed
    once, last, and the run returns. *)
Lemma close_runs_once_witness :
  count is_close (trace_of (run Stub.pw0 (Stub.boot Stub.wordspark None))) = 1
  /\ (exists b rc,
        In (Elaunch Stub.pw0 chromium true (Ok b))
           (trace_of (run Stub.pw0 (Stub.boot Stub.wordspark None))) /\
        last (trace_of (run Stub.pw0 (Stub.boot Stub.wordspark None)))
        = Some (Eclose b rc))
  /\ is_ok (outcome_of (run Stub.pw0 (Stub.boot Stub.wordspark None)))
     = forallb returned
         (trace_of (run Stub.pw0 (Stub.boot Stub.wordspark None))).
Proof.
  apply (close_runs_once Stub.pw0 (Stub.boot Stub.wordspark None)).
  vm_compute. reflexivity.
Defined.

(** C1, as stated, fails: [launch], [new_context] and [new_page] are
    called before the [try] block.  When [launch] raises there is no
    browser and no close; when [new_context] or [new_page] raises the
    browser has been launched and [run] leaves without closing it. *)
Lemma close_skipped_when_setup_raises :
  let t0 := trace_of (run Stub.pw0 (Stub.boot Stub.wordspark (Some 0))) in
  let t1 := trace_of (run Stub.pw0 (Stub.boot Stub.wordspark (Some 1))) in
  let t2 := trace_of (run Stub.pw0 (Stub.boot Stub.wordspark (Some 2))) in
  (t0 = [Elaunch Stub.pw0 chromium true (Err (Error "injected fault"))]
   /\ count is_close t0 = 0) /\
  (t1 = [Elaunch Stub.pw0 chromium true (Ok (BrowserHandle 1));
         Enew_context (BrowserHandle 1) (Err (Error "injected fault"))]
   /\ count is_close t1 = 0) /\
  (t2 = [Elaunch Stub.pw0 chromium true (Ok (BrowserHandle 1));
         Enew_context (BrowserHandle 1) (Ok (ContextHandle 2));
         Enew_page (ContextHandle 2) (Err (Error "injected fault"))]
   /\ count is_close t2 = 0) /\
  ~ (forall (pw : playwright) (w : Stub.world),
        count is_close (trace_of (run pw w)) = 1).
Proof.
  repeat split; try (vm_compute; reflexivity).
  intros Hall.
  specialize (Hall Stub.pw0 (Stub.boot Stub.wordspark (Some 1))).
  vm_compute in Hall. discriminate.
Qed.

(** ** The login branch *)

(** C4.  When the probe answers that the "WordSpark" heading is not
    visible, the login branch is skipped: the run fills no field, does
    not click "Sign In", takes no login screenshot, and its next call is
    the wait for the "Vocabulary Lists" heading. *)
Theorem login_branch_skipped {W : Type} `{Driver W}
    (pw : playwright) (w : W) :
  existsb (probe_answers false) (trace_of (run pw w)) = true ->
  count is_fill (trace_of (run pw w)) = 0 /\
  count (clicks (get_by_role button "Sign In")) (trace_of (run pw w)) = 0 /\
  count (shoots after_login_png) (trace_of (run pw w)) = 0 /\
  exists p r rest,
    after_first (probe_answers false) (trace_of (run pw w))
    = Some (Eexpect_visible p (get_by_role heading "Vocabulary Lists")
              (Some 10000%Z) r :: rest).
Proof.
  (* one case per answer of the library, up to the end of the run *)
  run_cases.
  (* the probe raised or answered true, or was never reached: the
     hypothesis is false; otherwise the trace is explicit *)
  all: intros Hprobe; try discriminate Hprobe.
  all: settle.
Qed.

Lemma login_branch_skipped_witness :
  count is_fill
    (trace_of (run Stub.pw0 (Stub.boot Stub.signed_in None))) = 0 /\
  count (clicks (get_by_role button "Sign In"))
    (trace_of (run Stub.pw0 (Stub.boot Stub.signed_in None))) = 0 /\
  count (shoots after_login_png)
    (trace_of (run Stub.pw0 (Stub.boot Stub.signed_in None))) = 0 /\
  exists p r rest,
    after_first (probe_answers false)
      (trace_of (run Stub.pw0 (Stub.boot Stub.signed_in None)))
    = Some (Eexpect_visible p (get_by_role heading "Vocabulary Lists")
              (Some 10000%Z) r :: rest).
Proof.
  apply (login_branch_skipped Stub.pw0 (Stub.boot Stub.signed_in None)).
  vm_compute. reflexivity.
Defined.

(** C3, as amended.  When the probe answers that the heading is visible,
    the next call fills "Email" with "test@example.com"; when that
    returns, the next fills "Password" with "password"; when that
    returns, the next clicks "Sign In"; when that returns, the next is
    the screenshot at the login path.  No run fills more than these two
    fields or clicks "Sign In" more than once, and a run whose login
    screenshot returned made each of the four calls exactly once. *)
Theorem login_branch_steps {W : Type} `{Driver W}
    (pw : playwright) (w : W) :
  existsb (probe_answers true) (trace_of (run pw w)) = true ->
  (exists p r1 rest1,
      after_first (probe_answers true) (trace_of (run pw w))
      = Some (Efill p (get_by_label "Email") "test@example.com" r1 :: rest1)
      /\ (is_ok r1 = true ->
          exists r2 rest2,
            rest1 = Efill p (get_by_label "Password") "password" r2 :: rest2
            /\ (is_ok r2 = true ->
                exists r3 rest3,
                  rest2 = Eclick p (get_by_role button "Sign In") r3 :: rest3
                  /\ (is_ok r3 = true ->
                      exists r4 rest4,
                        rest3 = Escreenshot p after_login_png r4 :: rest4)))) /\
  count is_fill (trace_of (run pw w)) <= 2 /\
  count (clicks (get_by_role button "Sign In")) (trace_of (run pw w)) <= 1 /\
  (existsb (shot after_login_png) (trace_of (run pw w)) = true ->
   count is_fill (trace_of (run pw w)) = 2 /\
   count (clicks (get_by_role button "Sign In")) (trace_of (run pw w)) = 1 /\
   count (shoots after_login_png) (trace_of (run pw w)) = 1).
Proof.
  run_cases.
  all: intros Hprobe; try discriminate Hprobe.
  (* the probe answered true: one case per step of the branch that
     raises, and the cases in which all four return *)
  all: settle.
Qed.

Lemma login_branch_steps_witness :
  (exists p r1 rest1,
      after_first (probe_answers true)
        (trace_of (run Stub.pw0 (Stub.boot Stub.wordspark None)))
      = Some (Efill p (get_by_label "Email") "test@example.com" r1 :: rest1)
      /\ (is_ok r1 = true ->
          exists r2 rest2,
            rest1 = Efill p (get_by_label "Password") "password" r2 :: rest2
            /\ (is_ok r2 = true ->
                exists r3 rest3,
                  rest2 = Eclick p (get_by_role button "Sign In") r3 :: rest3
                  /\ (is_ok r3 = true ->
                      exists r4 rest4,
                        rest3 = Escreenshot p after_login_png r4 :: rest4)))) /\
  count is_fill
    (trace_of (run Stub.pw0 (Stub.boot Stub.wordspark None))) <= 2 /\
  count (clicks (get_by_role button "Sign In"))
    (trace_of (run Stub.pw0 (Stub.boot Stub.wordspark None))) <= 1 /\
  (existsb (shot after_login_png)
     (trace_of (run Stub.pw0 (Stub.boot Stub.wordspark None))) = true ->
   count is_fill
     (trace_of (run Stub.pw0 (Stub.boot Stub.wordspark None))) = 2 /\
   count (clicks (get_by_role button "Sign In"))
     (trace_of (run Stub.pw0 (Stub.boot Stub.wordspark None))) = 1 /\
   count (shoots after_login_png)
     (trace_of (run Stub.pw0 (Stub.boot Stub.wordspark None))) = 1).
Proof.
  apply (login_branch_steps Stub.pw0 (Stub.boot Stub.wordspark None)).
  vm_compute. reflexivity.
Defined.

(** C3, as stated, fails on a login page that shows the heading but has
    no "Email" field: the first fill raises, and the password is not
    filled, "Sign In" is not clicked and no login screenshot is taken. *)
Lemma login_steps_cut_short :
  let t := trace_of (run Stub.pw0 (Stub.boot Stub.no_email None)) in
  existsb (probe_answers true) t = true /\
  after_first (probe_answers true) t
  = Some [Efill (PageHandle 3) (get_by_label "Email") "test@example.com"
            (Err (TimeoutError "fill: no such element"));
          Eclose (BrowserHandle 1) (Ok tt)] /\
  count is_fill t = 1 /\
  count (clicks (get_by_role button "Sign In")) t = 0 /\
  count (shoots after_login_png) t = 0.
Proof. vm_compute. repeat split. Qed.

(** ** The wait for the dashboard *)

(** C2.  Once the login branch is left, skipped or completed, the next
    call is the visibility assertion on the heading "Vocabulary Lists"
    with a timeout of 10000 ms.  When that assertion raises, the run
    raises too: the only call that follows is the close of the browser,
    and the exception that leaves [run] is the assertion's own unless the
    close raised. *)
Theorem vocabulary_wait {W : Type} `{Driver W} (pw : playwright) (w : W) :
  existsb leaves_login (trace_of (run pw w)) = true ->
  exists p r rest,
    after_first leaves_login (trace_of (run pw w))
    = Some (Eexpect_visible p (get_by_role heading "Vocabulary Lists")
              (Some 10000%Z) r :: rest) /\
    (is_ok r = false ->
     is_ok (outcome_of (run pw w)) = false /\
     exists b rc,
       rest = [Eclose b rc] /\
       (is_ok rc = true -> outcome_of (run pw w) = r)).
Proof.
  run_cases.
  all: intros Hleft; try discriminate Hleft.
  (* the branch was left: the wait is the next call; in the cases in
     which it raised, the close is the only call left *)
  all: settle.
Qed.

(** A dashboard that never shows the heading: the assertion raises and
    so does the run. *)
Lemma vocabulary_wait_witness :
  exists p r rest,
    after_first leaves_login
      (trace_of (run Stub.pw0 (Stub.boot Stub.blank_dashboard None)))
    = Some (Eexpect_visible p (get_by_role heading "Vocabulary Lists")
              (Some 10000%Z) r :: rest) /\
    (is_ok r = false ->
     is_ok (outcome_of (run Stub.pw0 (Stub.boot Stub.blank_dashboard None)))
     = false /\
     exists b rc,
       rest = [Eclose b rc] /\
       (is_ok rc = true ->
        outcome_of (run Stub.pw0 (Stub.boot Stub.blank_dashboard None)) = r)).
Proof.
  apply (vocabulary_wait Stub.pw0 (Stub.boot Stub.blank_dashboard None)).
  vm_compute. reflexivity.
Defined.

(** ** The "Play Story" button *)

(** C6.  After the dashboard screenshot returns, the next call asserts
    that the first "Play Story" button is visible, passing no timeout, so
    that the library's default applies (nonzero, whatever it is).  When
    the assertion passes, the next call clicks that same locator, and the
    run clicks it exactly once; no run clicks it twice. *)
Theorem play_story_first_button {W : Type} `{Driver W}
    (pw : playwright) (w : W) (default : Z) :
  default <> 0%Z ->
  existsb (shot dashboard_png) (trace_of (run pw w)) = true ->
  count (clicks (first (get_by_role button "Play Story")))
        (trace_of (run pw w)) <= 1 /\
  exists p timeout r rest,
    after_first (shot dashboard_png) (trace_of (run pw w))
    = Some (Eexpect_visible p (first (get_by_role button "Play Story"))
              timeout r :: rest) /\
    timeout = None /\
    effective_timeout default timeout <> 0%Z /\
    (is_ok r = true ->
     count (clicks (first (get_by_role button "Play Story")))
           (trace_of (run pw w)) = 1 /\
     exists rc rest',
       rest = Eclick p (first (get_by_role button "Play Story")) rc :: rest').
Proof.
  intros Hdefault. run_cases.
  all: intros Hshot; try discriminate Hshot.
  all: settle.
  (* what is left: the default timeout is not zero *)
  all: cbn; exact Hdefault.
Qed.

Lemma play_story_first_button_witness :
  count (clicks (first (get_by_role button "Play Story")))
        (trace_of (run Stub.pw0 (Stub.boot Stub.wordspark None))) <= 1 /\
  exists p timeout r rest,
    after_first (shot dashboard_png)
      (trace_of (run Stub.pw0 (Stub.boot Stub.wordspark None)))
    = Some (Eexpect_visible p (first (get_by_role button "Play Story"))
              timeout r :: rest) /\
    timeout = None /\
    effective_timeout 5000 timeout <> 0%Z /\
    (is_ok r = true ->
     count (clicks (first (get_by_role button "Play Story")))
           (trace_of (run Stub.pw0 (Stub.boot Stub.wordspark None))) = 1 /\
     exists rc rest',
       rest = Eclick p (first (get_by_role button "Play Story")) rc :: rest').
Proof.
  apply (play_story_first_button Stub.pw0
           (Stub.boot Stub.wordspark None) 5000%Z).
  - lia.
  - vm_compute. reflexivity.
Defined.

(** ** The wait for the story page *)

Module LocatorFacts.
Import Locators.

#[local] Arguments String.append !_ _ / : simpl nomatch.

(** Every character is one of the 256. *)
Lemma ascii_in_range c : In c (List.map ascii_of_nat (seq 0 256)).
Proof.
  rewrite <- (ascii_nat_embedding c). apply in_map, in_seq.
  pose proof (nat_ascii_bounded c). lia.
Qed.

(** [upper] identifies exactly the two cases of a letter. *)
Lemma upper_same_letter a b :
  upper a = upper b <-> same_letter a b = true.
Proof.
  assert (forallb (fun x =>
            forallb (fun y =>
              Bool.eqb (Ascii.eqb (upper x) (upper y)) (same_letter x y))
              (List.map ascii_of_nat (seq 0 256)))
            (List.map ascii_of_nat (seq 0 256)) = true) as Hall
    by (vm_compute; reflexivity).
  rewrite forallb_forall in Hall.
  specialize (Hall a (ascii_in_range a)). rewrite forallb_forall in Hall.
  specialize (Hall b (ascii_in_range b)).
  apply Bool.eqb_prop in Hall. rewrite <- Hall. symmetry. apply Ascii.eqb_eq.
Qed.

Lemma uppercase_eq_nocase s1 s2 :
  uppercase s1 = uppercase s2 <-> eq_nocase s1 s2 = true.
Proof.
  revert s2. induction s1 as [|a s1 IH]; intros [|b s2]; cbn; try done.
  rewrite andb_true_iff, <- IH, <- upper_same_letter.
  split; [intros [= Ha Hs] | intros [Ha Hs]]; [done | congruence].
Qed.

Lemma uppercase_app s1 s2 :
  uppercase (s1 +:+ s2) = uppercase s1 +:+ uppercase s2.
Proof. induction s1 as [|a s1 IH]; cbn; [done | by rewrite IH]. Qed.

Lemma uppercase_split s x y :
  uppercase s = x +:+ y ->
  exists a b, s = a +:+ b /\ uppercase a = x /\ uppercase b = y.
Proof.
  revert s. induction x as [|c x IH]; intros s Hs.
  - by exists EmptyString, s.
  - destruct s as [|d s]; cbn in Hs; [discriminate |].
    injection Hs as Hc Hs. destruct (IH s Hs) as (a & b & -> & Ha & Hb).
    exists (String d a), b. cbn. by rewrite Hc, Ha.
Qed.

Lemma prefix_split pat s :
  String.prefix pat s = true <-> exists post, s = pat +:+ post.
Proof.
  revert s. induction pat as [|a pat IH]; intros [|b s]; cbn.
  - split; eauto.
  - split; eauto.
  - split; [done | intros [post [=]]].
  - destruct (ascii_dec a b) as [->|Hne].
    + rewrite IH. split; intros [post Hpost]; exists post; congruence.
    + split; [done | intros [post [= ? ?]]; congruence].
Qed.

(** [contains] is the search for a substring. *)
Lemma contains_split pat s :
  contains pat s = true <-> exists pre post, s = pre +:+ pat +:+ post.
Proof.
  induction s as [|c s IH]; cbn [contains]; rewrite orb_true_iff, prefix_split.
  - split.
    + intros [[post Hpost] | [=]]. by exists EmptyString, post.
    + intros (pre & post & Hs). left.
      destruct pre; cbn in Hs; [by exists post | discriminate].
  - rewrite IH. split.
    + intros [[post Hpost] | (pre & post & ->)].
      * by exists EmptyString, post.
      * by exists (String c pre), post.
    + intros (pre & post & Hs). destruct pre as [|d pre]; cbn in Hs.
      * left. by exists post.
      * right. injection Hs as -> ->. by exists pre, post.
Qed.

(** A string matches a name exactly when, whitespace normalised on both
    sides, it occurs in the name up to the case of the letters. *)
Lemma name_matches_spec name accessible :
  name_matches name accessible = true <->
  exists pre mid post,
    normalize accessible = pre +:+ mid +:+ post /\
    eq_nocase mid (normalize name) = true.
Proof.
  unfold name_matches. rewrite contains_split. split.
  - intros (pre' & post' & Hs).
    apply uppercase_split in Hs as (pre & rest & Hacc & _ & Hrest).
    apply uppercase_split in Hrest as (mid & post & -> & Hmid & _).
    exists pre, mid, post. split; [done |]. by apply uppercase_eq_nocase.
  - intros (pre & mid & post & Hacc & Hmid).
    apply uppercase_eq_nocase in Hmid.
    exists (uppercase pre), (uppercase post).
    by rewrite Hacc, !uppercase_app, Hmid.
Qed.

End LocatorFacts.

Module SqueezeFacts.
Import Locators.

#[local] Arguments String.append !_ _ / : simpl nomatch.

(** The two cases of a letter are both whitespace or both not. *)
Lemma same_letter_space a b :
  same_letter a b = true -> is_space a = is_space b.
Proof.
  assert (forallb (fun x =>
            forallb (fun y =>
              implb (same_letter x y) (Bool.eqb (is_space x) (is_space y)))
              (List.map ascii_of_nat (seq 0 256)))
            (List.map ascii_of_nat (seq 0 256)) = true) as Hall
    by (vm_compute; reflexivity).
  rewrite forallb_forall in Hall.
  specialize (Hall a (LocatorFacts.ascii_in_range a)).
  rewrite forallb_forall in Hall.
  specialize (Hall b (LocatorFacts.ascii_in_range b)).
  intros Hab. rewrite Hab in Hall. by apply Bool.eqb_prop in Hall.
Qed.

Lemma eq_nocase_spaceless mid pat :
  eq_nocase mid pat = true -> spaceless pat = true -> spaceless mid = true.
Proof.
  revert pat. induction mid as [|a mid IH]; intros [|b pat]; cbn; try done.
  rewrite !andb_true_iff. intros [Hab Hmid] [Hb Hpat].
  rewrite (same_letter_space a b Hab). eauto.
Qed.

(** After whitespace, what is kept begins with one space, if anything is
    kept. *)
Lemma squeeze_gap_head s :
  squeeze true true s = EmptyString
  \/ exists rest, squeeze true true s = String " " rest.
Proof.
  induction s as [|c s IH]; cbn; [by left |].
  destruct (is_space c); [exact IH | right; by eexists].
Qed.

(** Characters that are not whitespace are kept as they come. *)
Lemma squeeze_spaceless mid post :
  spaceless mid = true ->
  squeeze true false (mid +:+ post) = mid +:+ squeeze true false post.
Proof.
  induction mid as [|c mid IH]; cbn; [done |].
  rewrite andb_true_iff, negb_true_iff. intros [-> Hmid]. by rewrite IH.
Qed.

Lemma squeeze_prefix mid s post :
  spaceless mid = true ->
  squeeze true false s = mid +:+ post -> exists post', s = mid +:+ post'.
Proof.
  revert s. induction mid as [|d mid IH]; intros s; [by exists s |].
  cbn. rewrite andb_true_iff, negb_true_iff. intros [Hd Hmid].
  destruct s as [|c s]; cbn; [discriminate |].
  destruct (is_space c) eqn:Hc.
  - destruct (squeeze_gap_head s) as [-> | [rest ->]]; [discriminate |].
    intros [= <- _]. discriminate Hd.
  - intros [= -> Hs]. destruct (IH s Hmid Hs) as [post' ->]. by exists post'.
Qed.

(** Normalising the whitespace of a string neither makes nor breaks an
    occurrence of a string that has no whitespace in it. *)
Lemma squeeze_occurrence mid s :
  spaceless mid = true -> mid <> EmptyString ->
  forall started gap pre post,
    squeeze started gap s = pre +:+ mid +:+ post ->
    exists pre' post', s = pre' +:+ mid +:+ post'.
Proof.
  intros Hmid Hne.
  assert (forall s0 c p post,
             (forall started gap pre post,
                 squeeze started gap s0 = pre +:+ mid +:+ post ->
                 exists pre' post', s0 = pre' +:+ mid +:+ post') ->
             String c (squeeze true false s0) = p +:+ mid +:+ post ->
             exists pre' post', String c s0 = pre' +:+ mid +:+ post') as Hkept.
  { intros s0 c [|x p] post IH; cbn.
    - destruct mid as [|d mid']; [done |]. cbn in *.
      apply andb_true_iff in Hmid as [_ Hmid'].
      intros [= -> Hs].
      destruct (squeeze_prefix mid' s0 post Hmid' Hs) as [post' ->].
      by exists EmptyString, post'.
    - intros [= -> Hs]. destruct (IH _ _ _ _ Hs) as (pre' & post' & ->).
      by exists (String x pre'), post'. }
  induction s as [|c s IH]; intros started gap pre post; cbn.
  - destruct pre; cbn; [| discriminate]. destruct mid; [done | discriminate].
  - destruct (is_space c).
    + intros Hs. destruct (IH _ _ _ _ Hs) as (pre' & post' & ->).
      by exists (String c pre'), post'.
    + destruct gap; [| by apply Hkept].
      destruct pre as [|x pre]; cbn.
      * destruct mid as [|d mid']; [done |]. cbn in Hmid.
        intros [= <- _]. discriminate Hmid.
      * intros [= _ Hs]. by apply (Hkept s c pre post).
Qed.

Lemma occurrence_squeeze mid pre post :
  spaceless mid = true -> mid <> EmptyString ->
  forall started gap,
    exists pre' post',
      squeeze started gap (pre +:+ mid +:+ post) = pre' +:+ mid +:+ post'.
Proof.
  intros Hmid Hne. induction pre as [|c pre IH]; intros started gap; cbn.
  - destruct mid as [|d mid']; [done |]. cbn in *.
    apply andb_true_iff in Hmid as [Hd Hmid'].
    apply negb_true_iff in Hd. rewrite Hd, squeeze_spaceless by done.
    destruct gap.
    + by exists " ", (squeeze true false post).
    + by exists EmptyString, (squeeze true false post).
  - destruct (is_space c); [apply IH |].
    destruct (IH true false) as (pre' & post' & ->).
    destruct gap.
    + by exists (String " " (String c pre')), post'.
    + by exists (String c pre'), post'.
Qed.

(** The names that match "Story:": those that have it somewhere, up to
    the case of the letters. *)
Lemma story_name_spec name :
  name_matches "Story:" name = true <->
  exists pre mid post,
    name = pre +:+ mid +:+ post /\ eq_nocase mid "Story:" = true.
Proof.
  rewrite LocatorFacts.name_matches_spec.
  change (normalize "Story:") with "Story:". unfold normalize.
  split; intros (pre & mid & post & Hname & Hmid).
  - assert (spaceless mid = true) as Hsp
      by (by apply (eq_nocase_spaceless mid "Story:")).
    assert (mid <> EmptyString) as Hne by (by destruct mid).
    destruct (squeeze_occurrence mid name Hsp Hne _ _ _ _ Hname)
      as (pre' & post' & ->).
    by exists pre', mid, post'.
  - assert (spaceless mid = true) as Hsp
      by (by apply (eq_nocase_spaceless mid "Story:")).
    assert (mid <> EmptyString) as Hne by (by destruct mid).
    destruct (occurrence_squeeze mid pre post Hsp Hne false false)
      as (pre' & post' & Hs).
    exists pre', mid, post'. by rewrite Hname, Hs.
Qed.

End SqueezeFacts.

(** A name that begins with "Story:" is one of them. *)
Lemma story_prefix_matches title :
  String.prefix "Story:" title = true ->
  Locators.name_matches "Story:" title = true.
Proof.
  intros Hp. apply LocatorFacts.prefix_split in Hp as [post ->].
  apply SqueezeFacts.story_name_spec.
  by exists EmptyString, "Story:", post.
Qed.

(** What a role locator resolves to on a stub page. *)
Lemma resolve_by_role r name screen e :
  In e (Stub.resolve (get_by_role r name) screen) <->
  In e screen /\ Stub.el_role e = r /\
  Locators.name_matches name (Stub.el_name e) = true.
Proof.
  cbn [Stub.resolve]. rewrite filter_In, andb_true_iff.
  assert (Stub.role_eqb r (Stub.el_role e) = true <-> Stub.el_role e = r)
    as -> by (destruct r, (Stub.el_role e); cbn; split; congruence).
  tauto.
Qed.

(** On the stub application with any story page, the wait of the run
    passes exactly when its locator resolves to one element. *)
Lemma story_wait_on_stub story :
  In (Eexpect_visible (PageHandle 3) (get_by_role heading "Story:") None
        (Ok tt))
     (trace_of (run Stub.pw0 (Stub.boot (Stub.with_story story) None)))
  <-> exists e, Stub.resolve (get_by_role heading "Story:") story = [e].
Proof.
  vm_compute.
  match goal with
  | |- context [match ?x with [] => _ | _ :: _ => _ end] =>
      destruct x as [|e [|e' l]]
  end.
  - split; [| intros [e [=]]].
    intros Hin. repeat (destruct Hin as [[=] | Hin]). destruct Hin.
  - split; [by exists e |]. intros _. do 13 right. by left.
  - split; [| intros [e0 [=]]].
    intros Hin. repeat (destruct Hin as [[=] | Hin]). destruct Hin.
Qed.

(** C5, as amended.  After the click on the first "Play Story" button
    returns, the next call asserts, with no timeout of its own, that the
    locator [get_by_role("heading", name="Story:")] is visible.  On a
    page whose names are in ASCII that wait passes exactly when the
    locator resolves to one element, and it resolves to the headings
    whose accessible name has "Story:" somewhere in it, up to the case
    of the letters.  So it passes on a page whose one heading begins
    with "Story:", and not only there. *)
Theorem story_wait {W : Type} `{Driver W} (pw : playwright) (w : W)
    (story : list Stub.element) :
  existsb (clicked (first (get_by_role button "Play Story")))
          (trace_of (run pw w)) = true ->
  forallb (fun e => Locators.is_ascii (Stub.el_name e)) story = true ->
  (exists p r rest,
      after_first (clicked (first (get_by_role button "Play Story")))
                  (trace_of (run pw w))
      = Some (Eexpect_visible p (get_by_role heading "Story:") None r
                :: rest)) /\
  (In (Eexpect_visible (PageHandle 3) (get_by_role heading "Story:") None
         (Ok tt))
      (trace_of (run Stub.pw0 (Stub.boot (Stub.with_story story) None)))
   <-> exists e, Stub.resolve (get_by_role heading "Story:") story = [e]) /\
  (forall e,
      In e (Stub.resolve (get_by_role heading "Story:") story) <->
      In e story /\ Stub.el_role e = heading /\
      exists pre mid post,
        Stub.el_name e = pre +:+ mid +:+ post /\
        Locators.eq_nocase mid "Story:" = true) /\
  (forall title,
      String.prefix "Story:" title = true ->
      Stub.resolve (get_by_role heading "Story:") (Stub.story_screen title)
      = [Stub.Element heading title None]).
Proof.
  intros Hclick _. split; [| split; [| split]].
  - revert Hclick. run_cases; settle.
  - apply story_wait_on_stub.
  - intros e. rewrite resolve_by_role, SqueezeFacts.story_name_spec.
    reflexivity.
  - intros title Hp. cbn [Stub.resolve Stub.story_screen List.filter].
    cbn [Stub.role_eqb Stub.el_role Stub.el_name andb].
    by rewrite (story_prefix_matches title Hp).
Qed.

(** A story page with two headings, of which the second alone has the
    words, in capitals and after others. *)
Lemma story_wait_witness :
  let story :=
    [Stub.Element heading "Reading room" None;
     Stub.Element heading "TODAY'S STORY:   THE FOX" None] in
  (exists p r rest,
      after_first (clicked (first (get_by_role button "Play Story")))
                  (trace_of (run Stub.pw0 (Stub.boot Stub.wordspark None)))
      = Some (Eexpect_visible p (get_by_role heading "Story:") None r
                :: rest)) /\
  (In (Eexpect_visible (PageHandle 3) (get_by_role heading "Story:") None
         (Ok tt))
      (trace_of (run Stub.pw0 (Stub.boot (Stub.with_story story) None)))
   <-> exists e, Stub.resolve (get_by_role heading "Story:") story = [e]) /\
  (forall e,
      In e (Stub.resolve (get_by_role heading "Story:") story) <->
      In e story /\ Stub.el_role e = heading /\
      exists pre mid post,
        Stub.el_name e = pre +:+ mid +:+ post /\
        Locators.eq_nocase mid "Story:" = true) /\
  (forall title,
      String.prefix "Story:" title = true ->
      Stub.resolve (get_by_role heading "Story:") (Stub.story_screen title)
      = [Stub.Element heading title None]).
Proof.
  cbv zeta.
  apply (story_wait Stub.pw0 (Stub.boot Stub.wordspark None)).
  - vm_compute. reflexivity.
  - vm_compute. reflexivity.
Defined.

(** C5, as stated, fails: on a story page whose only heading is named
    "A Short Story: The Fox", which does not begin with "Story:", the
    locator resolves to that heading, the wait passes and the run
    completes. *)
Lemma story_wait_accepts_inner_match :
  let title := "A Short Story: The Fox" in
  let t := trace_of (run Stub.pw0 (Stub.boot Stub.short_story None)) in
  String.prefix "Story:" title = false /\
  Stub.resolve (get_by_role heading "Story:") (Stub.story_screen title)
  = [Stub.Element heading title None] /\
  In (Eexpect_visible (PageHandle 3) (get_by_role heading "Story:") None
        (Ok tt)) t /\
  outcome_of (run Stub.pw0 (Stub.boot Stub.short_story None)) = Ok tt.
Proof.
  cbv zeta. split; [reflexivity |]. split; [vm_compute; reflexivity |].
  split; [| vm_compute; reflexivity].
  vm_compute. do 13 right. left. reflexivity.
Qed.

(** ** Screenshots and failures *)

(** The trace of [run] is a fail-stop part, in which a raised call is
    the last one, followed by at most the close of the browser. *)
Lemma run_trace_shape {W : Type} `{Driver W} (pw : playwright) (w : W) :
  exists t1 t2,
    trace_of (run pw w) = t1 ++ t2 /\ fail_stop t1 = true /\
    (t2 = [] \/ exists b rc, t2 = [Eclose b rc]).
Proof.
  destruct (existsb created_page (trace_of (run pw w))) eqn:Hpage.
  - destruct (run_after_setup pw w Hpage) as (b & c & p & w3 & Ht & _).
    rewrite Ht, trace_try_finally.
    destruct (trace_close b (world_of (steps p w3))) as (rc & Hc & _).
    rewrite Hc, app_assoc. eexists _, _. split; [reflexivity |].
    split; [| right; by exists b, rc].
    rewrite fail_stop_app by reflexivity.
    apply (disciplined_steps p w3).
  - exists (trace_of (run pw w)), []. rewrite app_nil_r.
    split; [reflexivity |]. split; [| by left].
    revert Hpage. unfold run, mbind, M_bind, bind, call, trace_of.
    destruct (launch pw chromium true w) as [[b|e] w1]; cbn; [| done].
    destruct (new_context b w1) as [[c|e] w2]; cbn; [| done].
    destruct (new_page c w2) as [[p|e] w3]; cbn; [| done].
    destruct (try_finally _ _ w3) as [[r w4] t]; cbn. discriminate.
Qed.

Lemma after_raise_in_block t1 t2 rest :
  fail_stop t1 = true ->
  after_first raised (t1 ++ t2) = Some rest ->
  rest = t2 \/ after_first raised t2 = Some rest.
Proof.
  induction t1 as [|e t1 IH]; cbn; [by right |].
  unfold raised. destruct (returned e); cbn; [exact IH |].
  destruct t1; [| discriminate]. intros _ [= <-]. by left.
Qed.

(** C9.  A screenshot is taken only right after the step before it
    succeeded: the login screenshot right after a click on "Sign In" that
    returned, the dashboard screenshot right after the "Vocabulary Lists"
    wait passed, the story screenshot right after the "Story:" wait
    passed.  After the first call that raises, the run takes no
    screenshot at all. *)
Theorem no_screenshot_after_failure {W : Type} `{Driver W}
    (pw : playwright) (w : W) :
  each_follows (clicked (get_by_role button "Sign In"))
               (shoots after_login_png) None (trace_of (run pw w)) = true /\
  each_follows (passes (get_by_role heading "Vocabulary Lists")
                       (Some 10000%Z))
               (shoots dashboard_png) None (trace_of (run pw w)) = true /\
  each_follows (passes (get_by_role heading "Story:") None)
               (shoots story_page_png) None (trace_of (run pw w)) = true /\
  (forall rest,
      after_first raised (trace_of (run pw w)) = Some rest ->
      count is_screenshot rest = 0).
Proof.
  split; [| split; [| split]].
  1-3: run_cases; reflexivity.
  intros rest Hrest.
  destruct (run_trace_shape pw w) as (t1 & t2 & Ht & Hfs & Ht2).
  rewrite Ht in Hrest.
  destruct (after_raise_in_block _ _ _ Hfs Hrest) as [-> | Hlater].
  - destruct Ht2 as [-> | (b & rc & ->)]; reflexivity.
  - destruct Ht2 as [-> | (b & rc & ->)]; cbn in Hlater; [discriminate |].
    destruct (raised (Eclose b rc)); [| discriminate].
    by injection Hlater as <-.
Qed.

(** ** One browser, one context, one page, one navigation *)

(** C10, as amended.  Every run calls [launch] once and never calls
    [new_context], [new_page] or [goto] twice.  A run in which the page
    was created has made each of the four calls exactly once, in that
    order, each on the handle that the call before returned, the
    navigation being to the fixed address.  Nothing follows the close of
    the browser in [run], and in the whole script only the exit of the
    library's manager does. *)
Theorem one_of_each {W : Type} `{Driver W} (pw : playwright) (w : W) :
  count is_launch (trace_of (run pw w)) = 1 /\
  count is_new_context (trace_of (run pw w)) <= 1 /\
  count is_new_page (trace_of (run pw w)) <= 1 /\
  count is_goto (trace_of (run pw w)) <= 1 /\
  (existsb created_page (trace_of (run pw w)) = true ->
   exists b c p rg rest,
     trace_of (run pw w)
     = Elaunch pw chromium true (Ok b) :: Enew_context b (Ok c)
       :: Enew_page c (Ok p) :: Egoto p "http://localhost:8080/" rg :: rest
     /\ count is_launch rest = 0 /\ count is_new_context rest = 0
     /\ count is_new_page rest = 0 /\ count is_goto rest = 0) /\
  (forall rest,
      after_first is_close (trace_of (run pw w)) = Some rest -> rest = []) /\
  (forall rest,
      after_first is_close (trace_of (verify w)) = Some rest ->
      count uses_handle rest = 0).
Proof.
  repeat apply conj.
  1-6: run_cases; settle; congruence.
  run_cases; settle;
    match goal with Heq : Some _ = Some _ |- _ => by injection Heq as <- end.
Qed.

(** The stub application: the page is created, and the four calls are
    made once each. *)
Lemma one_of_each_witness :
  count is_launch
    (trace_of (run Stub.pw0 (Stub.boot Stub.wordspark None))) = 1 /\
  exists b c p rg rest,
    trace_of (run Stub.pw0 (Stub.boot Stub.wordspark None))
    = Elaunch Stub.pw0 chromium true (Ok b) :: Enew_context b (Ok c)
      :: Enew_page c (Ok p) :: Egoto p "http://localhost:8080/" rg :: rest
    /\ count is_launch rest = 0 /\ count is_new_context rest = 0
    /\ count is_new_page rest = 0 /\ count is_goto rest = 0.
Proof.
  pose proof (one_of_each Stub.pw0 (Stub.boot Stub.wordspark None))
    as (Hlaunch & _ & _ & _ & Hpage & _).
  split; [exact Hlaunch |].
  apply Hpage. vm_compute. reflexivity.
Defined.

(** C10, as stated, fails when [launch] raises: the run has created no
    browser, no context and no page, and has not navigated. *)
Lemma nothing_created_when_launch_raises :
  trace_of (run Stub.pw0 (Stub.boot Stub.wordspark (Some 0)))
  = [Elaunch Stub.pw0 chromium true (Err (Error "injected fault"))] /\
  count (fun e => is_launch e && returned e)
    (trace_of (run Stub.pw0 (Stub.boot Stub.wordspark (Some 0)))) = 0 /\
  count is_new_context
    (trace_of (run Stub.pw0 (Stub.boot Stub.wordspark (Some 0)))) = 0 /\
  count is_new_page
    (trace_of (run Stub.pw0 (Stub.boot Stub.wordspark (Some 0)))) = 0 /\
  count is_goto
    (trace_of (run Stub.pw0 (Stub.boot Stub.wordspark (Some 0)))) = 0.
Proof. vm_compute. repeat split. Qed.

(** ** The three files *)

(** C8.  A run that returns normally after taking the login branch has
    taken exactly three screenshots, at the login, dashboard and story
    paths, in that order.  On the disk each of the three paths then holds
    the image of this run, whatever was there before, every other path is
    as it was, and the set of files is the old one with the three paths
    added. *)
Theorem three_screenshots {W : Type} `{Driver W} (pw : playwright) (w : W) :
  outcome_of (run pw w) = Ok tt ->
  existsb (probe_answers true) (trace_of (run pw w)) = true ->
  exists p i1 i2 i3,
    List.filter is_screenshot (trace_of (run pw w))
    = [Escreenshot p after_login_png (Ok i1);
       Escreenshot p dashboard_png (Ok i2);
       Escreenshot p story_page_png (Ok i3)] /\
    forall d : gmap string bytes,
      disk_after (trace_of (run pw w)) d !! after_login_png = Some i1 /\
      disk_after (trace_of (run pw w)) d !! dashboard_png = Some i2 /\
      disk_after (trace_of (run pw w)) d !! story_page_png = Some i3 /\
      (forall path,
          path <> after_login_png -> path <> dashboard_png ->
          path <> story_page_png ->
          disk_after (trace_of (run pw w)) d !! path = d !! path) /\
      dom (disk_after (trace_of (run pw w)) d)
      = {[after_login_png; dashboard_png; story_page_png]} ∪ dom d.
Proof.
  run_cases; try discriminate. intros _ _.
  eexists _, _, _, _. split; [reflexivity |]. intros d.
  unfold disk_after, after_login_png, dashboard_png, story_page_png.
  cbn [fold_left store].
  repeat split.
  - by rewrite 2!lookup_insert_ne, lookup_insert_eq.
  - by rewrite lookup_insert_ne, lookup_insert_eq.
  - by rewrite lookup_insert_eq.
  - intros path Hl Hd Hs. rewrite 3!lookup_insert_ne; congruence.
  - rewrite !dom_insert_L. apply set_eq. intros path.
    rewrite !elem_of_union. tauto.
Qed.

Lemma three_screenshots_witness :
  exists p i1 i2 i3,
    List.filter is_screenshot
      (trace_of (run Stub.pw0 (Stub.boot Stub.wordspark None)))
    = [Escreenshot p after_login_png (Ok i1);
       Escreenshot p dashboard_png (Ok i2);
       Escreenshot p story_page_png (Ok i3)] /\
    forall d : gmap string bytes,
      disk_after (trace_of (run Stub.pw0 (Stub.boot Stub.wordspark None))) d
        !! after_login_png = Some i1 /\
      disk_after (trace_of (run Stub.pw0 (Stub.boot Stub.wordspark None))) d
        !! dashboard_png = Some i2 /\
      disk_after (trace_of (run Stub.pw0 (Stub.boot Stub.wordspark None))) d
        !! story_page_png = Some i3 /\
      (forall path,
          path <> after_login_png -> path <> dashboard_png ->
          path <> story_page_png ->
          disk_after
            (trace_of (run Stub.pw0 (Stub.boot Stub.wordspark None))) d
            !! path = d !! path) /\
      dom (disk_after
             (trace_of (run Stub.pw0 (Stub.boot Stub.wordspark None))) d)
      = {[after_login_png; dashboard_png; story_page_png]} ∪ dom d.
Proof.
  apply (three_screenshots Stub.pw0 (Stub.boot Stub.wordspark None)).
  - vm_compute. reflexivity.
  - vm_compute. reflexivity.
Defined.

(** ** The exception that leaves the script *)

(** X2.  The outcome of [run] is decided by the last call that raised:
    [run] raises that call's exception, and returns when no call raised.
    So an exception of [browser.close()] replaces the one of the step
    that failed before it. *)
Theorem run_raises_last_error {W : Type} `{Driver W}
    (pw : playwright) (w : W) :
  outcome_of (run pw w) = raise_or_return (last_error (trace_of (run pw w))).
Proof. run_cases; all_tt; reflexivity. Qed.

(** X3.  The same holds of the whole script: an exception of the
    manager's exit replaces the one that left [run]. *)
Theorem verify_raises_last_error {W : Type} `{Driver W} (w : W) :
  outcome_of (verify w) = raise_or_return (last_error (trace_of (verify w))).
Proof. run_cases; all_tt; reflexivity. Qed.

(** ** No retry *)

(** X4.  After the first call that raises, [run] makes no call but the
    close of the browser; it never repeats a step. *)
Theorem no_call_after_failure_but_close {W : Type} `{Driver W}
    (pw : playwright) (w : W) (rest : list event) :
  after_first raised (trace_of (run pw w)) = Some rest ->
  rest = [] \/ exists b rc, rest = [Eclose b rc].
Proof.
  intros Hrest.
  destruct (run_trace_shape pw w) as (t1 & t2 & Ht & Hfs & Ht2).
  rewrite Ht in Hrest.
  destruct (after_raise_in_block _ _ _ Hfs Hrest) as [-> | Hlater].
  - exact Ht2.
  - destruct Ht2 as [-> | (b & rc & ->)]; cbn in Hlater; [discriminate |].
    destruct (raised (Eclose b rc)); [| discriminate].
    left. by injection Hlater as <-.
Qed.

(** The dashboard never shows its heading: the wait raises and the close
    is all that follows. *)
Lemma no_call_after_failure_but_close_witness :
  after_first raised
    (trace_of (run Stub.pw0 (Stub.boot Stub.blank_dashboard None)))
  = Some [Eclose (BrowserHandle 1) (Ok tt)] /\
  ([Eclose (BrowserHandle 1) (Ok tt)] = []
   \/ exists b rc, [Eclose (BrowserHandle 1) (Ok tt)] = [Eclose b rc]).
Proof.
  split; [vm_compute; reflexivity |].
  apply (no_call_after_failure_but_close Stub.pw0
           (Stub.boot Stub.blank_dashboard None)).
  vm_compute. reflexivity.
Defined.

(** ** The library's manager *)

(** X1.  When the manager was entered, its exit is called exactly once,
    as the last call of the script, on the handle that the entry
    returned, whatever [run] did: also when [run] raised before its
    [try] block and left the browser open. *)
Theorem manager_exit_runs_once {W : Type} `{Driver W} (w : W) :
  existsb entered (trace_of (verify w)) = true ->
  count is_stop (trace_of (verify w)) = 1 /\
  exists pw rs,
    head (trace_of (verify w)) = Some (Estart (Ok pw)) /\
    last (trace_of (verify w)) = Some (Estop pw rs).
Proof.
  run_cases.
  all: intros Hentered; try discriminate Hentered.
  all: settle.
Qed.

(** The context cannot be created: the browser is launched and not
    closed, and the manager is left all the same. *)
Lemma manager_exit_runs_once_witness :
  trace_of (verify (Stub.boot Stub.wordspark (Some 2)))
  = [Estart (Ok Stub.pw0);
     Elaunch Stub.pw0 chromium true (Ok (BrowserHandle 1));
     Enew_context (BrowserHandle 1) (Err (Error "injected fault"));
     Estop Stub.pw0 (Ok tt)] /\
  count is_stop (trace_of (verify (Stub.boot Stub.wordspark (Some 2)))) = 1 /\
  exists pw rs,
    head (trace_of (verify (Stub.boot Stub.wordspark (Some 2))))
    = Some (Estart (Ok pw)) /\
    last (trace_of (verify (Stub.boot Stub.wordspark (Some 2))))
    = Some (Estop pw rs).
Proof.
  split; [vm_compute; reflexivity |].
  apply (manager_exit_runs_once (Stub.boot Stub.wordspark (Some 2))).
  vm_compute. reflexivity.
Defined.

(** ** One handle of each kind *)

(** X6.  [run] launches Chromium, headless, first, on the handle it was
    given.  Once the page exists, every page operation of the run is made
    on that page, the page was opened in the one context, and the context
    was created in, and the close is made on, the browser that [launch]
    returned. *)
Theorem handles_are_threaded {W : Type} `{Driver W}
    (pw : playwright) (w : W) :
  (exists r, head (trace_of (run pw w)) = Some (Elaunch pw chromium true r)) /\
  (existsb created_page (trace_of (run pw w)) = true ->
   exists b c p,
     In (Elaunch pw chromium true (Ok b)) (trace_of (run pw w)) /\
     In (Enew_context b (Ok c)) (trace_of (run pw w)) /\
     In (Enew_page c (Ok p)) (trace_of (run pw w)) /\
     (forall e b', In e (trace_of (run pw w)) ->
                   browser_of e = Some b' -> b' = b) /\
     (forall e c', In e (trace_of (run pw w)) ->
                   context_of e = Some c' -> c' = c) /\
     (forall e p', In e (trace_of (run pw w)) ->
                   page_of e = Some p' -> p' = p)).
Proof.
  split.
  - unfold run, mbind, M_bind, bind, call, trace_of.
    destruct (launch pw chromium true w) as [[b|x] w1]; cbn.
    + destruct (new_context b w1) as [[c|x] w2]; cbn; [| by eexists].
      destruct (new_page c w2) as [[p|x] w3]; cbn; [| by eexists].
      destruct (try_finally _ _ w3) as [[r w4] t]; cbn. by eexists.
    + by eexists.
  - run_cases.
    all: intros Hpage; try discriminate Hpage.
    all: eexists _, _, _.
    all: split; [by left |].
    all: split; [right; by left |].
    all: split; [do 2 right; by left |].
    all: repeat split; intros ? ? Hin Hh.
    all: repeat (destruct Hin as [<- | Hin]; [cbn in Hh; congruence |]).
    all: destruct Hin.
Qed.

Lemma handles_are_threaded_witness :
  exists b c p,
    In (Elaunch Stub.pw0 chromium true (Ok b))
       (trace_of (run Stub.pw0 (Stub.boot Stub.wordspark None))) /\
    In (Enew_context b (Ok c))
       (trace_of (run Stub.pw0 (Stub.boot Stub.wordspark None))) /\
    In (Enew_page c (Ok p))
       (trace_of (run Stub.pw0 (Stub.boot Stub.wordspark None))) /\
    (forall e b',
        In e (trace_of (run Stub.pw0 (Stub.boot Stub.wordspark None))) ->
        browser_of e = Some b' -> b' = b) /\
    (forall e c',
        In e (trace_of (run Stub.pw0 (Stub.boot Stub.wordspark None))) ->
        context_of e = Some c' -> c' = c) /\
    (forall e p',
        In e (trace_of (run Stub.pw0 (Stub.boot Stub.wordspark None))) ->
        page_of e = Some p' -> p' = p).
Proof.
  apply (handles_are_threaded Stub.pw0 (Stub.boot Stub.wordspark None)).
  vm_compute. reflexivity.
Defined.

(** ** What a run that returns has done *)

(** X7.  A run that returns normally has made every call of the script
    once, in the order of the script, and each has returned: the three
    creations, the navigation, the probe, the four login steps when the
    probe answered true and none of them otherwise, then the two waits
    around the dashboard screenshot and the click, the story wait and
    screenshot, and the close. *)
Theorem completed_run_trace {W : Type} `{Driver W}
    (pw : playwright) (w : W) :
  outcome_of (run pw w) = Ok tt ->
  exists b c p i2 i3,
    let setup :=
      [Elaunch pw chromium true (Ok b); Enew_context b (Ok c);
       Enew_page c (Ok p); Egoto p "http://localhost:8080/" (Ok tt)] in
    let rest :=
      [Eexpect_visible p (get_by_role heading "Vocabulary Lists")
         (Some 10000%Z) (Ok tt);
       Escreenshot p dashboard_png (Ok i2);
       Eexpect_visible p (first (get_by_role button "Play Story")) None
         (Ok tt);
       Eclick p (first (get_by_role button "Play Story")) (Ok tt);
       Eexpect_visible p (get_by_role heading "Story:") None (Ok tt);
       Escreenshot p story_page_png (Ok i3);
       Eclose b (Ok tt)] in
    trace_of (run pw w)
    = setup ++ [Eis_visible p (get_by_role heading "WordSpark") (Ok false)]
      ++ rest
    \/ exists i1,
      trace_of (run pw w)
      = setup
        ++ [Eis_visible p (get_by_role heading "WordSpark") (Ok true);
            Efill p (get_by_label "Email") "test@example.com" (Ok tt);
            Efill p (get_by_label "Password") "password" (Ok tt);
            Eclick p (get_by_role button "Sign In") (Ok tt);
            Escreenshot p after_login_png (Ok i1)]
        ++ rest.
Proof.
  run_cases.
  all: intros Hok; try discriminate Hok.
  all: all_tt; eexists _, _, _, _, _; cbn.
  - right. eexists. reflexivity.
  - left. reflexivity.
Qed.

Lemma completed_run_trace_witness :
  exists b c p i2 i3,
    let setup :=
      [Elaunch Stub.pw0 chromium true (Ok b); Enew_context b (Ok c);
       Enew_page c (Ok p); Egoto p "http://localhost:8080/" (Ok tt)] in
    let rest :=
      [Eexpect_visible p (get_by_role heading "Vocabulary Lists")
         (Some 10000%Z) (Ok tt);
       Escreenshot p dashboard_png (Ok i2);
       Eexpect_visible p (first (get_by_role button "Play Story")) None
         (Ok tt);
       Eclick p (first (get_by_role button "Play Story")) (Ok tt);
       Eexpect_visible p (get_by_role heading "Story:") None (Ok tt);
       Escreenshot p story_page_png (Ok i3);
       Eclose b (Ok tt)] in
    trace_of (run Stub.pw0 (Stub.boot Stub.signed_in None))
    = setup ++ [Eis_visible p (get_by_role heading "WordSpark") (Ok false)]
      ++ rest
    \/ exists i1,
      trace_of (run Stub.pw0 (Stub.boot Stub.signed_in None))
      = setup
        ++ [Eis_visible p (get_by_role heading "WordSpark") (Ok true);
            Efill p (get_by_label "Email") "test@example.com" (Ok tt);
            Efill p (get_by_label "Password") "password" (Ok tt);
            Eclick p (get_by_role button "Sign In") (Ok tt);
            Escreenshot p after_login_png (Ok i1)]
        ++ rest.
Proof.
  apply (completed_run_trace Stub.pw0 (Stub.boot Stub.signed_in None)).
  vm_compute. reflexivity.
Defined.

(** ** What is typed into the page *)

(** X8.  Whatever the page and the answers of the library, a run types
    nothing but the two fixed credentials, each into its own field, and
    only when the probe has answered that the login heading is visible. *)
Theorem only_the_fixed_credentials {W : Type} `{Driver W}
    (pw : playwright) (w : W) (p : page) (l : locator) (value : string)
    (r : result unit) :
  In (Efill p l value r) (trace_of (run pw w)) ->
  existsb (probe_answers true) (trace_of (run pw w)) = true /\
  ((l = get_by_label "Email" /\ value = "test@example.com") \/
   (l = get_by_label "Password" /\ value = "password")).
Proof.
  run_cases; intros Hin.
  all: repeat (destruct Hin as [Heq | Hin];
               [first [ discriminate Heq
                      | injection Heq as <- <- <- <-;
                        split; [reflexivity | intuition reflexivity] ] |]).
  all: destruct Hin.
Qed.

Lemma only_the_fixed_credentials_witness :
  existsb (probe_answers true)
    (trace_of (run Stub.pw0 (Stub.boot Stub.wordspark None))) = true /\
  ((get_by_label "Password" = get_by_label "Email"
    /\ "password" = "test@example.com") \/
   (get_by_label "Password" = get_by_label "Password"
    /\ "password" = "password")).
Proof.
  apply (only_the_fixed_credentials Stub.pw0 (Stub.boot Stub.wordspark None)
           (PageHandle 3) (get_by_label "Password") "password" (Ok tt)).
  vm_compute. do 6 right. left. reflexivity.
Defined.

(** ** A creation that fails *)

(** X5.  When the browser, the context or the page cannot be created,
    the creation that raised is the last call of [run]: nothing of the
    [try] block is run, the browser is not closed by [run], and [run]
    raises. *)
Theorem failed_creation_ends_run {W : Type} `{Driver W}
    (pw : playwright) (w : W) :
  existsb created_page (trace_of (run pw w)) = false ->
  count is_close (trace_of (run pw w)) = 0 /\
  is_ok (outcome_of (run pw w)) = false /\
  exists t e,
    trace_of (run pw w) = t ++ [e] /\
    forallb returned t = true /\ raised e = true /\
    (is_launch e || is_new_context e || is_new_page e) = true /\
    outcome_of (run pw w) = raise_or_return (error_of e).
Proof.
  unfold run, mbind, M_bind, bind, call, trace_of, outcome_of.
  destruct (launch pw chromium true w) as [[b|x] w1]; cbn.
  - destruct (new_context b w1) as [[c|x] w2]; cbn.
    + destruct (new_page c w2) as [[p|x] w3]; cbn.
      * destruct (try_finally _ _ w3) as [[r w4] t]; cbn. discriminate.
      * intros _. repeat split.
        by exists [Elaunch pw chromium true (Ok b); Enew_context b (Ok c)],
                  (Enew_page c (Err x)).
    + intros _. repeat split.
      by exists [Elaunch pw chromium true (Ok b)], (Enew_context b (Err x)).
  - intros _. repeat split.
    by exists [], (Elaunch pw chromium true (Err x)).
Qed.

Lemma failed_creation_ends_run_witness :
  count is_close
    (trace_of (run Stub.pw0 (Stub.boot Stub.wordspark (Some 2)))) = 0 /\
  is_ok (outcome_of (run Stub.pw0 (Stub.boot Stub.wordspark (Some 2))))
  = false /\
  exists t e,
    trace_of (run Stub.pw0 (Stub.boot Stub.wordspark (Some 2))) = t ++ [e] /\
    forallb returned t = true /\ raised e = true /\
    (is_launch e || is_new_context e || is_new_page e) = true /\
    outcome_of (run Stub.pw0 (Stub.boot Stub.wordspark (Some 2)))
    = raise_or_return (error_of e).
Proof.
  apply (failed_creation_ends_run Stub.pw0
           (Stub.boot Stub.wordspark (Some 2))).
  vm_compute. reflexivity.
Defined.

(** ** The files of any run *)

(** A file is as it was when no screenshot of the trace targets it. *)
Lemma disk_after_frame t (d : gmap string bytes) path :
  ~ In path (screenshot_paths t) -> disk_after t d !! path = d !! path.
Proof.
  unfold disk_after. revert d.
  induction t as [|e t IH]; intros d Hnot; [reflexivity |].
  destruct e; cbn in *; try (by apply IH).
  destruct r as [image|x]; cbn.
  - rewrite IH by tauto. apply lookup_insert_ne. tauto.
  - apply IH. tauto.
Qed.

(** Screenshots add files and replace files; they remove none. *)
Lemma disk_after_keeps t (d : gmap string bytes) path :
  is_Some (d !! path) -> is_Some (disk_after t d !! path).
Proof.
  unfold disk_after. revert d.
  induction t as [|e t IH]; intros d Hd; [exact Hd |].
  destruct e; cbn; try (by apply IH).
  destruct r as [image|x]; cbn; [| by apply IH].
  apply IH. destruct (decide (path0 = path)) as [->|Hne].
  - rewrite lookup_insert_eq. by eexists.
  - by rewrite lookup_insert_ne.
Qed.

(** The screenshots of a run target the three paths of the script only. *)
Lemma run_screenshot_paths {W : Type} `{Driver W} (pw : playwright) (w : W) :
  forall path,
    In path (screenshot_paths (trace_of (run pw w))) ->
    path = after_login_png \/ path = dashboard_png \/ path = story_page_png.
Proof.
  run_cases; intros path Hin.
  all: repeat (destruct Hin as [<- | Hin]; [tauto |]).
  all: destruct Hin.
Qed.

(** X10.  Whether it returns or raises, a run changes no file other than
    the three screenshots, and leaves every file that existed in place. *)
Theorem run_touches_three_paths_only {W : Type} `{Driver W}
    (pw : playwright) (w : W) (d : gmap string bytes) :
  (forall path,
      path <> after_login_png -> path <> dashboard_png ->
      path <> story_page_png ->
      disk_after (trace_of (run pw w)) d !! path = d !! path) /\
  (forall path,
      is_Some (d !! path) ->
      is_Some (disk_after (trace_of (run pw w)) d !! path)).
Proof.
  split.
  - intros path Hl Hd Hs. apply disk_after_frame.
    intros Hin. apply run_screenshot_paths in Hin. tauto.
  - intros path. apply disk_after_keeps.
Qed.

(** The disk after a run that returned with the login branch taken. *)
Lemma completed_login_run_disk {W : Type} `{Driver W}
    (pw : playwright) (w : W) :
  outcome_of (run pw w) = Ok tt ->
  existsb (probe_answers true) (trace_of (run pw w)) = true ->
  exists i1 i2 i3,
    forall d : gmap string bytes,
      disk_after (trace_of (run pw w)) d
      = <[story_page_png := i3]>
          (<[dashboard_png := i2]> (<[after_login_png := i1]> d)).
Proof.
  run_cases.
  all: intros Hok Hprobe; try discriminate Hok; try discriminate Hprobe.
  eexists _, _, _. intros d. reflexivity.
Qed.

(** X11.  Of two runs that returned with the login branch taken, the
    second leaves the disk as if the first had not happened: the three
    files hold the images of the second run, and the set of files is the
    one that the first run left. *)
Theorem last_run_wins {W : Type} `{Driver W}
    (pw1 pw2 : playwright) (w1 w2 : W) (d : gmap string bytes) :
  outcome_of (run pw1 w1) = Ok tt ->
  existsb (probe_answers true) (trace_of (run pw1 w1)) = true ->
  outcome_of (run pw2 w2) = Ok tt ->
  existsb (probe_answers true) (trace_of (run pw2 w2)) = true ->
  disk_after (trace_of (run pw2 w2)) (disk_after (trace_of (run pw1 w1)) d)
  = disk_after (trace_of (run pw2 w2)) d /\
  dom (disk_after (trace_of (run pw2 w2))
         (disk_after (trace_of (run pw1 w1)) d))
  = dom (disk_after (trace_of (run pw1 w1)) d).
Proof.
  intros Hok1 Hp1 Hok2 Hp2.
  destruct (completed_login_run_disk pw1 w1 Hok1 Hp1) as (i1 & i2 & i3 & H1).
  destruct (completed_login_run_disk pw2 w2 Hok2 Hp2) as (j1 & j2 & j3 & H2).
  rewrite !H2, !H1. split.
  - apply map_eq. intros path.
    destruct (decide (story_page_png = path)) as [<-|Hs];
      [by rewrite !lookup_insert_eq |].
    rewrite (lookup_insert_ne _ story_page_png path) by done.
    rewrite (lookup_insert_ne (<[dashboard_png:=j2]> (<[after_login_png:=j1]> d))
               story_page_png path) by done.
    destruct (decide (dashboard_png = path)) as [<-|Hd];
      [by rewrite !lookup_insert_eq |].
    rewrite (lookup_insert_ne _ dashboard_png path) by done.
    rewrite (lookup_insert_ne (<[after_login_png:=j1]> d)
               dashboard_png path) by done.
    destruct (decide (after_login_png = path)) as [<-|Hl];
      [by rewrite !lookup_insert_eq |].
    by rewrite !lookup_insert_ne.
  - rewrite !dom_insert_L. apply set_eq. intros path.
    rewrite !elem_of_union. tauto.
Qed.

Lemma last_run_wins_witness :
  let t := trace_of (run Stub.pw0 (Stub.boot Stub.wordspark None)) in
  disk_after t (disk_after t ∅) = disk_after t ∅ /\
  dom (disk_after t (disk_after t ∅)) = dom (disk_after t ∅).
Proof.
  apply (last_run_wins Stub.pw0 Stub.pw0
           (Stub.boot Stub.wordspark None) (Stub.boot Stub.wordspark None) ∅).
  all: vm_compute; reflexivity.
Defined.

(** X9.  A run that returned with the login branch skipped has taken two
    screenshots, the dashboard and the story, and has left whatever was
    at the login path as it was. *)
Theorem two_screenshots_when_signed_in {W : Type} `{Driver W}
    (pw : playwright) (w : W) :
  outcome_of (run pw w) = Ok tt ->
  existsb (probe_answers false) (trace_of (run pw w)) = true ->
  exists p i2 i3,
    List.filter is_screenshot (trace_of (run pw w))
    = [Escreenshot p dashboard_png (Ok i2);
       Escreenshot p story_page_png (Ok i3)] /\
    forall d : gmap string bytes,
      disk_after (trace_of (run pw w)) d !! after_login_png
      = d !! after_login_png /\
      disk_after (trace_of (run pw w)) d !! dashboard_png = Some i2 /\
      disk_after (trace_of (run pw w)) d !! story_page_png = Some i3.
Proof.
  run_cases.
  all: intros Hok Hprobe; try discriminate Hok; try discriminate Hprobe.
  eexists _, _, _. split; [reflexivity |]. intros d.
  unfold disk_after, after_login_png, dashboard_png, story_page_png.
  cbn [fold_left store].
  repeat split.
  - by rewrite 2!lookup_insert_ne.
  - by rewrite lookup_insert_ne, lookup_insert_eq.
  - by rewrite lookup_insert_eq.
Qed.

Lemma two_screenshots_when_signed_in_witness :
  exists p i2 i3,
    List.filter is_screenshot
      (trace_of (run Stub.pw0 (Stub.boot Stub.signed_in None)))
    = [Escreenshot p dashboard_png (Ok i2);
       Escreenshot p story_page_png (Ok i3)] /\
    forall d : gmap string bytes,
      disk_after (trace_of (run Stub.pw0 (Stub.boot Stub.signed_in None))) d
        !! after_login_png = d !! after_login_png /\
      disk_after (trace_of (run Stub.pw0 (Stub.boot Stub.signed_in None))) d
        !! dashboard_png = Some i2 /\
      disk_after (trace_of (run Stub.pw0 (Stub.boot Stub.signed_in None))) d
        !! story_page_png = Some i3.
Proof.
  apply (two_screenshots_when_signed_in Stub.pw0
           (Stub.boot Stub.signed_in None)).
  all: vm_compute; reflexivity.
Defined.
